(** * A shallow embedding of the user service of [app/main.py]

    The service keeps one module-level list, [users_db], of dictionaries
    with the keys ["id"], ["name"], ["email"] and ["age"].  Every handler
    reads or replaces that list; here each handler is a function from the
    current value of [users_db] to its outcome and the next value of
    [users_db].  An outcome is either the returned payload or the
    [HTTPException] the handler raises. *)

From Stdlib Require Import ZArith String DecimalString Lia.
From stdpp Require Import base list strings gmap.

Local Open Scope Z_scope.

(** ** Data model

    Python integers are unbounded: [Z].  Python strings are compared by
    [==] code point by code point; they are modelled by [string], the
    sequence of the bytes of their UTF-8 encoding, on which equality is
    the same relation. *)

(** The request body of [POST /users]: the pydantic model [User].  Its
    [id] is optional and is never read by [create_user]. *)
Module User.
Record t : Type := Build {
  id : option Z;
  name : string;
  email : string;
  age : Z
}.
End User.

(** The pydantic model [UserResponse]. *)
Module UserResponse.
Record t : Type := Build {
  id : Z;
  name : string;
  email : string;
  age : Z
}.
End UserResponse.

(** The dictionary [user_data] that [create_user] builds and appends to
    [users_db]: always the four keys below. *)
Module UserData.
Record t : Type := Build {
  id : Z;
  name : string;
  email : string;
  age : Z
}.
End UserData.

(** The [UserResponse] built from the keys of a stored dictionary. *)
Definition to_response (u : UserData.t) : UserResponse.t :=
  UserResponse.Build (UserData.id u) (UserData.name u)
                     (UserData.email u) (UserData.age u).

(** The value of the global [users_db]. *)
Abbreviation Store := (list UserData.t).

Record HTTPException : Type := mkHTTPException {
  status_code : Z;
  detail : string
}.

(** What a handler produces: a payload, or a raised [HTTPException]. *)
Inductive outcome (A : Type) : Type :=
| Ok (a : A)
| Raise (e : HTTPException).
Arguments Ok {A} a.
Arguments Raise {A} e.

(** The payloads that are plain dictionaries in the source. *)
Record RootPayload : Type := mkRoot {
  root_message : string;
  root_status : string
}.

Record HealthPayload : Type := mkHealth {
  status : string;
  version : string;
  users_count : Z
}.

Record DeletePayload : Type := mkDeleted { message : string }.

(** ** Python primitives used by the handlers *)

(** [len(xs)] as a Python integer. *)
Definition len {A : Type} (xs : list A) : Z := Z.of_nat (length xs).

(** [any(p(u) for u in xs)]: stops at the first element that satisfies
    [p]. *)
Fixpoint any {A : Type} (p : A -> bool) (xs : list A) : bool :=
  match xs with
  | [] => false
  | x :: xs' => if p x then true else any p xs'
  end.

(** [next((u for u in xs if p(u)), None)] *)
Fixpoint next_or_none {A : Type} (p : A -> bool) (xs : list A) : option A :=
  match xs with
  | [] => None
  | x :: xs' => if p x then Some x else next_or_none p xs'
  end.

(** The list comprehension that keeps the [u] of [xs] with [p(u)]. *)
Fixpoint comprehension {A : Type} (p : A -> bool) (xs : list A) : list A :=
  match xs with
  | [] => []
  | x :: xs' => if p x then x :: comprehension p xs' else comprehension p xs'
  end.

(** [str(n)] for an integer, as an f-string field formats it. *)
Definition str (n : Z) : string := NilZero.string_of_int (Z.to_int n).

(** ** The handlers *)

Definition age_detail : string := "Age must be between 0 and 150".
Definition email_detail : string := "Email already exists".
Definition not_found_detail : string := "User not found".

(** [GET /] *)
Definition root (users_db : Store) : outcome RootPayload * Store :=
  (Ok (mkRoot "Hello CI/CD World!" "healthy"), users_db).

(** [GET /health] *)
Definition health_check (users_db : Store) : outcome HealthPayload * Store :=
  (Ok (mkHealth "ok" "1.0.0" (len users_db)), users_db).

(** The test of the second [if] of [create_user]:
    [any(u["email"] == user.email for u in users_db)]. *)
Definition email_exists (user : User.t) (users_db : Store) : bool :=
  any (fun u => String.eqb (UserData.email u) (User.email user)) users_db.

(** The test shared by [get_user] and [delete_user]:
    [next((u for u in users_db if u["id"] == user_id), None)]. *)
Definition find_user (user_id : Z) (users_db : Store) : option UserData.t :=
  next_or_none (fun u => UserData.id u =? user_id) users_db.

(** [POST /users] *)
Definition create_user (user : User.t) (users_db : Store)
  : outcome UserResponse.t * Store :=
  if (User.age user <? 0) || (User.age user >? 150) then
    (Raise (mkHTTPException 400 age_detail), users_db)
  else if email_exists user users_db then
    (Raise (mkHTTPException 400 email_detail), users_db)
  else
    let user_id := len users_db + 1 in
    let user_data :=
      UserData.Build user_id (User.name user) (User.email user) (User.age user) in
    (Ok (to_response user_data), users_db ++ [user_data]).

(** [GET /users] *)
Definition get_users (users_db : Store) : outcome (list UserResponse.t) * Store :=
  (Ok (to_response <$> users_db), users_db).

(** [GET /users/{user_id}].  The source tests [not user]; a stored
    dictionary has four keys and is truthy, so the test holds exactly for
    [None]. *)
Definition get_user (user_id : Z) (users_db : Store)
  : outcome UserResponse.t * Store :=
  match find_user user_id users_db with
  | None => (Raise (mkHTTPException 404 not_found_detail), users_db)
  | Some user => (Ok (to_response user), users_db)
  end.

(** [DELETE /users/{user_id}]: rebinds the global to the filtered list. *)
Definition delete_user (user_id : Z) (users_db : Store)
  : outcome DeletePayload * Store :=
  match find_user user_id users_db with
  | None => (Raise (mkHTTPException 404 not_found_detail), users_db)
  | Some _ =>
      let users_db' :=
        comprehension (fun u => negb (UserData.id u =? user_id)) users_db in
      (Ok (mkDeleted ("User " +:+ str user_id +:+ " deleted successfully")),
       users_db')
  end.

(** ** Clients of the service *)

(** One request to the service. *)
Inductive request : Type :=
| GetRoot
| GetHealth
| PostUsers (user : User.t)
| GetUsers
| GetUser (user_id : Z)
| DeleteUser (user_id : Z).

(** The value of [users_db] once the handler of the request has run. *)
Definition store_after (req : request) (users_db : Store) : Store :=
  match req with
  | GetRoot => (root users_db).2
  | GetHealth => (health_check users_db).2
  | PostUsers user => (create_user user users_db).2
  | GetUsers => (get_users users_db).2
  | GetUser user_id => (get_user user_id users_db).2
  | DeleteUser user_id => (delete_user user_id users_db).2
  end.

(** A client that posts the bodies in order, as the loop of
    [test_multiple_users_creation] does, and keeps every outcome. *)
Fixpoint create_all (users : list User.t) (users_db : Store)
  : list (outcome UserResponse.t) * Store :=
  match users with
  | [] => ([], users_db)
  | user :: users' =>
      let r := create_user user users_db in
      let rs := create_all users' r.2 in
      (r.1 :: rs.1, rs.2)
  end.

(** The stores that successful creates and deletes build from the empty
    store. *)
Inductive reachable : Store -> Prop :=
| reachable_empty : reachable []
| reachable_create user users_db resp users_db' :
    reachable users_db ->
    create_user user users_db = (Ok resp, users_db') ->
    reachable users_db'
| reachable_delete user_id users_db resp users_db' :
    reachable users_db ->
    delete_user user_id users_db = (Ok resp, users_db') ->
    reachable users_db'.

(** How many stored records carry the id [user_id]. *)
Definition count_id (user_id : Z) (users_db : Store) : Z :=
  len (comprehension (fun u => UserData.id u =? user_id) users_db).

(** The record that the [i]-th successful create of a run from the empty
    store returns (counting from 0). *)
Definition nth_response (i : nat) (user : User.t) : UserResponse.t :=
  UserResponse.Build (Z.of_nat i + 1) (User.name user) (User.email user)
                     (User.age user).

(** The requests of the scenario create, create, delete 1, create. *)
Definition alice : User.t := User.Build None "A" "a@x.com" 30.
Definition bob : User.t := User.Build None "B" "b@x.com" 20.
Definition carol : User.t := User.Build None "C" "c@x.com" 40.

Definition collision_requests : list request :=
  [PostUsers alice; PostUsers bob; DeleteUser 1; PostUsers carol].

Definition collision_store : Store :=
  foldl (fun db req => store_after req db) [] collision_requests.

(** ** The list objects behind the two names

    [app/main.py] binds its global [users_db] to a list object, and
    [tests/test_main.py] imports that name, which binds a global of the
    test module to the same object.  [create_user] appends to the object
    that the name of [app.main] is bound to; [delete_user] declares
    [global users_db] and binds that name to a new list; the fixture
    [clear_db] calls [clear()] on the object that the name of the test
    module is bound to. *)

(** The list objects by address, and the two module globals. *)
Record World : Type := mkWorld {
  objects : gmap nat (list UserData.t);
  main_users_db : nat;
  test_users_db : nat
}.

(** The list at an address. *)
Definition deref (w : World) (l : nat) : Store := default [] (objects w !! l).

(** The list that the handlers of [app.main] read through [users_db]. *)
Definition service_store (w : World) : Store := deref w (main_users_db w).

(** The world once [tests/test_main.py] has imported [users_db]. *)
Definition imported : World := mkWorld {[ 0%nat := [] ]} 0 0.

(** [create_user] on the objects: a returning create appends in place. *)
Definition create_user_in (user : User.t) (w : World)
  : outcome UserResponse.t * World :=
  let r := create_user user (service_store w) in
  match r.1 with
  | Ok _ =>
      (r.1, mkWorld (<[main_users_db w := r.2]> (objects w))
                    (main_users_db w) (test_users_db w))
  | Raise _ => (r.1, w)
  end.

(** [delete_user] on the objects: a returning delete builds a new list
    and rebinds the global of [app.main] to it. *)
Definition delete_user_in (user_id : Z) (w : World)
  : outcome DeletePayload * World :=
  let r := delete_user user_id (service_store w) in
  match r.1 with
  | Ok _ =>
      let l := fresh (dom (objects w)) in
      (r.1, mkWorld (<[l := r.2]> (objects w)) l (test_users_db w))
  | Raise _ => (r.1, w)
  end.

(** One call of [users_db.clear()] in the fixture [clear_db] of the
    tests. *)
Definition clear_db (w : World) : World :=
  mkWorld (<[test_users_db w := []]> (objects w))
          (main_users_db w) (test_users_db w).

(** The world once the handler of the request has run; the four reading
    handlers touch no object and no name. *)
Definition world_after (req : request) (w : World) : World :=
  match req with
  | PostUsers user => (create_user_in user w).2
  | DeleteUser user_id => (delete_user_in user_id w).2
  | GetRoot | GetHealth | GetUsers | GetUser _ => w
  end.

Definition is_delete (req : request) : bool :=
  match req with
  | DeleteUser _ => true
  | _ => false
  end.

(** The store after a sequence of requests, in order. *)
Definition store_after_all (reqs : list request) (users_db : Store) : Store :=
  foldl (fun db req => store_after req db) users_db reqs.

(** The world after a sequence of requests, in order. *)
Definition world_after_all (reqs : list request) (w : World) : World :=
  foldl (fun w req => world_after req w) w reqs.

(** The names are apart: the test name is bound to a live list and the
    name of [app.main] to another one. *)
Definition names_apart (w : World) : Prop :=
  is_Some (objects w !! test_users_db w)
  /\ main_users_db w <> test_users_db w.

(** ** Facts about the Python primitives *)

Example str_samples :
  str 0 = "0"%string /\ str 7 = "7"%string /\ str 120 = "120"%string
  /\ str (-15) = "-15"%string.
Proof. repeat split; reflexivity. Qed.

Section primitives.
Context {A : Type} (p : A -> bool).

Lemma any_true xs : any p xs = true <-> exists x, x ∈ xs /\ p x = true.
Proof.
  induction xs as [|x xs IH]; simpl.
  - split; [discriminate | intros (x & Hx & _); inversion Hx].
  - destruct (p x) eqn:Hp.
    + split; [intros _; exists x; split; [left | exact Hp] | reflexivity].
    + rewrite IH. split.
      * intros (y & Hy & Hpy). exists y. split; [right; exact Hy | exact Hpy].
      * intros (y & Hy & Hpy). apply elem_of_cons in Hy as [-> | Hy].
        -- congruence.
        -- exists y. auto.
Qed.

Lemma any_false xs : any p xs = false <-> forall x, x ∈ xs -> p x = false.
Proof.
  split.
  - intros Hany x Hx. destruct (p x) eqn:Hp; [|reflexivity].
    assert (any p xs = true) by (apply any_true; eauto). congruence.
  - intros Hall. destruct (any p xs) eqn:Hany; [|reflexivity].
    apply any_true in Hany as (x & Hx & Hp). rewrite Hall in Hp; congruence.
Qed.

Lemma next_or_none_any xs :
  next_or_none p xs = None <-> any p xs = false.
Proof.
  induction xs as [|x xs IH]; simpl; [tauto|].
  destruct (p x); [split; discriminate | exact IH].
Qed.

Lemma next_or_none_Some xs x :
  next_or_none p xs = Some x -> x ∈ xs /\ p x = true.
Proof.
  induction xs as [|y xs IH]; simpl; [discriminate|].
  destruct (p y) eqn:Hp.
  - intros [= ->]. split; [left | exact Hp].
  - intros H. apply IH in H as [? ?]. split; [right|]; assumption.
Qed.

Lemma elem_of_comprehension xs x :
  x ∈ comprehension p xs <-> x ∈ xs /\ p x = true.
Proof.
  induction xs as [|y xs IH]; simpl.
  - split; [intros H; inversion H | intros [H _]; inversion H].
  - destruct (p y) eqn:Hp; rewrite ?elem_of_cons, IH, ?elem_of_cons.
    + split; [intros [-> | [? ?]]; auto | intros [[-> | ?] ?]; auto].
    + split; [intros [? ?]; auto | intros [[-> | ?] ?]; [congruence | auto]].
Qed.

Lemma comprehension_sublist xs : comprehension p xs `sublist_of` xs.
Proof.
  induction xs as [|y xs IH]; simpl; [constructor|].
  destruct (p y); [apply sublist_skip | apply sublist_cons]; exact IH.
Qed.

Lemma comprehension_idem xs :
  comprehension p (comprehension p xs) = comprehension p xs.
Proof.
  induction xs as [|y xs IH]; simpl; [reflexivity|].
  destruct (p y) eqn:Hp; simpl; rewrite ?Hp, IH; reflexivity.
Qed.

Lemma comprehension_split xs :
  len xs = len (comprehension p xs)
           + len (comprehension (fun x => negb (p x)) xs).
Proof.
  unfold len. induction xs as [|y xs IH]; simpl; [reflexivity|].
  destruct (p y); simpl; lia.
Qed.
End primitives.

(** ** The handlers, case by case *)

Section handlers.
Implicit Types (user : User.t) (users_db : Store) (user_id : Z).

Lemma email_exists_true user users_db :
  email_exists user users_db = true <->
  exists u, u ∈ users_db /\ UserData.email u = User.email user.
Proof.
  unfold email_exists. rewrite any_true.
  split; intros (u & Hu & He); exists u; (split; [exact Hu|]);
    apply String.eqb_eq; exact He.
Qed.

Lemma email_exists_false user users_db :
  email_exists user users_db = false <->
  forall u, u ∈ users_db -> UserData.email u <> User.email user.
Proof.
  unfold email_exists. rewrite any_false.
  split; intros H u Hu; apply String.eqb_neq, H, Hu.
Qed.

Lemma find_user_None user_id users_db :
  find_user user_id users_db = None <->
  forall u, u ∈ users_db -> UserData.id u <> user_id.
Proof.
  unfold find_user. rewrite next_or_none_any, any_false.
  split; intros H u Hu; apply Z.eqb_neq, H, Hu.
Qed.

Lemma find_user_is_Some user_id users_db :
  (exists u, u ∈ users_db /\ UserData.id u = user_id) ->
  exists u, find_user user_id users_db = Some u.
Proof.
  intros (u & Hu & Hid).
  destruct (find_user user_id users_db) as [v|] eqn:Hf; [eauto|].
  exfalso. eapply find_user_None; eauto.
Qed.

Lemma create_user_age_error user users_db :
  User.age user < 0 \/ 150 < User.age user ->
  create_user user users_db
  = (Raise (mkHTTPException 400 age_detail), users_db).
Proof.
  intros Hage. unfold create_user.
  replace ((User.age user <? 0) || (User.age user >? 150)) with true;
    [reflexivity|].
  symmetry. apply orb_true_iff. rewrite Z.ltb_lt, Z.gtb_ltb, Z.ltb_lt. exact Hage.
Qed.

Lemma age_test_false user :
  0 <= User.age user <= 150 ->
  (User.age user <? 0) || (User.age user >? 150) = false.
Proof.
  intros Hage. apply orb_false_iff. rewrite Z.gtb_ltb, !Z.ltb_ge. lia.
Qed.

Lemma create_user_email_error user users_db :
  0 <= User.age user <= 150 ->
  email_exists user users_db = true ->
  create_user user users_db
  = (Raise (mkHTTPException 400 email_detail), users_db).
Proof.
  intros Hage Hmail. unfold create_user.
  rewrite (age_test_false _ Hage), Hmail. reflexivity.
Qed.

Lemma create_user_ok user users_db :
  0 <= User.age user <= 150 ->
  email_exists user users_db = false ->
  create_user user users_db
  = (Ok (UserResponse.Build (len users_db + 1) (User.name user)
                            (User.email user) (User.age user)),
     users_db ++ [UserData.Build (len users_db + 1) (User.name user)
                                 (User.email user) (User.age user)]).
Proof.
  intros Hage Hmail. unfold create_user.
  rewrite (age_test_false _ Hage), Hmail. reflexivity.
Qed.

(** A create that returns a record passed both tests. *)
Lemma create_user_Ok_inv user users_db resp users_db' :
  create_user user users_db = (Ok resp, users_db') ->
  0 <= User.age user <= 150 /\ email_exists user users_db = false.
Proof.
  unfold create_user.
  destruct ((User.age user <? 0) || (User.age user >? 150)) eqn:Hage;
    [discriminate|].
  destruct (email_exists user users_db); [discriminate|].
  intros _. split; [|reflexivity].
  apply orb_false_iff in Hage. rewrite Z.gtb_ltb, !Z.ltb_ge in Hage. lia.
Qed.

Lemma delete_user_ok user_id users_db u :
  find_user user_id users_db = Some u ->
  delete_user user_id users_db
  = (Ok (mkDeleted ("User " +:+ str user_id +:+ " deleted successfully")),
     comprehension (fun v => negb (UserData.id v =? user_id)) users_db).
Proof. intros Hf. unfold delete_user. rewrite Hf. reflexivity. Qed.

Lemma delete_user_Ok_inv user_id users_db resp users_db' :
  delete_user user_id users_db = (Ok resp, users_db') ->
  users_db' = comprehension (fun v => negb (UserData.id v =? user_id)) users_db.
Proof.
  unfold delete_user. destruct (find_user user_id users_db); [|discriminate].
  intros [= _ <-]. reflexivity.
Qed.

End handlers.

(** ** Business rules of [create_user] *)

(** Claim C2.  Whatever the store and whatever the rest of the body, a
    create with age -1 or 151 raises status 400 with the detail "Age must
    be between 0 and 150"; a create with age 0 or 150 whose email is the
    email of no stored record returns the created record. *)
Theorem create_user_age_boundaries (user : User.t) (users_db : Store) :
  ((User.age user = -1 \/ User.age user = 151) ->
   (create_user user users_db).1
   = Raise (mkHTTPException 400 "Age must be between 0 and 150"))
  /\ ((User.age user = 0 \/ User.age user = 150) ->
      (forall u, u ∈ users_db -> UserData.email u <> User.email user) ->
      (create_user user users_db).1
      = Ok (UserResponse.Build (len users_db + 1) (User.name user)
                               (User.email user) (User.age user))).
Proof.
  split.
  - intros Hage. rewrite create_user_age_error; [reflexivity | lia].
  - intros Hage Hfresh. rewrite create_user_ok; [reflexivity | lia |].
    apply email_exists_false, Hfresh.
Qed.

Lemma create_user_age_boundaries_witness :
  (create_user (User.Build None "Old" "b@x.com" 151) collision_store).1
  = Raise (mkHTTPException 400 "Age must be between 0 and 150")
  /\ (create_user (User.Build None "New" "n@x.com" 150) collision_store).1
     = Ok (UserResponse.Build 3 "New" "n@x.com" 150).
Proof.
  split.
  - apply (proj1 (create_user_age_boundaries
                    (User.Build None "Old" "b@x.com" 151) collision_store)).
    right; reflexivity.
  - apply (proj2 (create_user_age_boundaries
                    (User.Build None "New" "n@x.com" 150) collision_store)).
    + right; reflexivity.
    + intros u Hu. vm_compute in Hu.
      repeat (apply elem_of_cons in Hu as [-> | Hu]; [discriminate|]).
      inversion Hu.
Defined.

(** Claim C3.  When the age is outside 0..150 and the email is also the
    email of a stored record, the create raises the age detail: the age
    test runs first. *)
Theorem create_user_age_before_email (user : User.t) (users_db : Store) :
  (User.age user < 0 \/ 150 < User.age user) ->
  (exists u, u ∈ users_db /\ UserData.email u = User.email user) ->
  (create_user user users_db).1
  = Raise (mkHTTPException 400 "Age must be between 0 and 150").
Proof.
  intros Hage _. rewrite create_user_age_error by exact Hage. reflexivity.
Qed.

Lemma create_user_age_before_email_witness :
  (create_user (User.Build None "Z" "b@x.com" 200) collision_store).1
  = Raise (mkHTTPException 400 "Age must be between 0 and 150").
Proof.
  apply create_user_age_before_email.
  - right. simpl. lia.
  - exists (UserData.Build 2 "B" "b@x.com" 20). split; [|reflexivity].
    vm_compute. left.
Defined.

(** Claim C4.  When some stored record has the email of the body and the
    age is within 0..150, the create raises status 400 with the detail
    "Email already exists", for every name and age of the body, and the
    store is the same afterwards: listing returns the same records. *)
Theorem create_user_duplicate_email (user : User.t) (users_db : Store) :
  0 <= User.age user <= 150 ->
  (exists u, u ∈ users_db /\ UserData.email u = User.email user) ->
  (create_user user users_db).1
  = Raise (mkHTTPException 400 "Email already exists")
  /\ (create_user user users_db).2 = users_db
  /\ (get_users (create_user user users_db).2).1 = (get_users users_db).1.
Proof.
  intros Hage Hdup. apply email_exists_true in Hdup.
  rewrite create_user_email_error by assumption. auto.
Qed.

Lemma create_user_duplicate_email_witness :
  let db := (create_user alice []).2 in
  let again := User.Build None "B" "a@x.com" 20 in
  (create_user again db).1
  = Raise (mkHTTPException 400 "Email already exists")
  /\ (create_user again db).2 = db
  /\ (get_users (create_user again db).2).1 = (get_users db).1.
Proof.
  apply create_user_duplicate_email.
  - simpl. lia.
  - exists (UserData.Build 1 "A" "a@x.com" 30). split; [|reflexivity].
    vm_compute. left.
Defined.

(** Claim C8.  The duplicate test compares emails by exact string
    equality: it is false exactly when the email of the body differs from
    the email of every stored record, and then the create does not raise
    "Email already exists"; with an age within 0..150 it returns the
    record. *)
Theorem email_check_exact (user : User.t) (users_db : Store) :
  (forall u, u ∈ users_db -> UserData.email u <> User.email user) ->
  email_exists user users_db = false
  /\ (create_user user users_db).1
     <> Raise (mkHTTPException 400 "Email already exists")
  /\ (0 <= User.age user <= 150 ->
      exists resp, (create_user user users_db).1 = Ok resp).
Proof.
  intros Hfresh. apply email_exists_false in Hfresh.
  split; [exact Hfresh|]. split.
  - unfold create_user. rewrite Hfresh.
    destruct ((User.age user <? 0) || (User.age user >? 150)); discriminate.
  - intros Hage. rewrite create_user_ok by assumption. eauto.
Qed.

Lemma email_check_exact_witness :
  let db := (create_user alice []).2 in
  let upper := User.Build None "A" "A@x.com" 30 in
  email_exists upper db = false
  /\ (create_user upper db).1
     <> Raise (mkHTTPException 400 "Email already exists")
  /\ (0 <= User.age upper <= 150 ->
      exists resp, (create_user upper db).1 = Ok resp).
Proof.
  apply email_check_exact.
  intros u Hu. vm_compute in Hu.
  apply elem_of_cons in Hu as [-> | Hu]; [discriminate | inversion Hu].
Defined.

(** ** Lookup by id *)

(** Claim C7.  When no stored record has the id, [get_user] and
    [delete_user] both raise status 404 with the detail "User not found",
    and both leave the store as it was. *)
Theorem missing_id_not_found (user_id : Z) (users_db : Store) :
  (forall u, u ∈ users_db -> UserData.id u <> user_id) ->
  get_user user_id users_db
  = (Raise (mkHTTPException 404 "User not found"), users_db)
  /\ delete_user user_id users_db
     = (Raise (mkHTTPException 404 "User not found"), users_db).
Proof.
  intros Hmiss. apply find_user_None in Hmiss.
  unfold get_user, delete_user. rewrite Hmiss. split; reflexivity.
Qed.

Lemma missing_id_not_found_witness :
  get_user 999 collision_store
  = (Raise (mkHTTPException 404 "User not found"), collision_store)
  /\ delete_user 999 collision_store
     = (Raise (mkHTTPException 404 "User not found"), collision_store).
Proof.
  apply missing_id_not_found.
  intros u Hu. vm_compute in Hu.
  repeat (apply elem_of_cons in Hu as [-> | Hu]; [discriminate|]).
  inversion Hu.
Defined.

(** Claim C10.  [delete_user] raises 404 exactly when [get_user] raises
    404, and each does so exactly when no stored record has the id. *)
Theorem delete_404_iff_get_404 (user_id : Z) (users_db : Store) :
  ((delete_user user_id users_db).1
   = Raise (mkHTTPException 404 "User not found")
   <-> (get_user user_id users_db).1
       = Raise (mkHTTPException 404 "User not found"))
  /\ ((get_user user_id users_db).1
      = Raise (mkHTTPException 404 "User not found")
      <-> ~ exists u, u ∈ users_db /\ UserData.id u = user_id).
Proof.
  assert (Hnone : find_user user_id users_db = None
                  <-> ~ exists u, u ∈ users_db /\ UserData.id u = user_id).
  { rewrite find_user_None. split.
    - intros H (u & Hu & Hid). exact (H u Hu Hid).
    - intros H u Hu Hid. apply H. eauto. }
  rewrite <- Hnone. unfold delete_user, get_user.
  destruct (find_user user_id users_db); simpl;
    (split; split; intros; (reflexivity || discriminate)).
Qed.

(** ** Runs of creates from the empty store *)

Lemma len_app {A : Type} (xs ys : list A) : len (xs ++ ys) = len xs + len ys.
Proof. unfold len. rewrite length_app. lia. Qed.

(** A run of creates whose emails are new and pairwise distinct, from any
    store: every create returns, and the records are appended in order
    with the ids that follow the length of the store. *)
Lemma create_all_fresh (users : list User.t) :
  forall users_db : Store,
  NoDup (User.email <$> users) ->
  (forall user, user ∈ users ->
     0 <= User.age user <= 150 /\ email_exists user users_db = false) ->
  (create_all users users_db).1
  = imap (fun i user =>
            Ok (UserResponse.Build (len users_db + Z.of_nat i + 1)
                  (User.name user) (User.email user) (User.age user))) users
  /\ (create_all users users_db).2
     = users_db
       ++ imap (fun i user =>
                  UserData.Build (len users_db + Z.of_nat i + 1)
                    (User.name user) (User.email user) (User.age user)) users.
Proof.
  induction users as [|user users IH]; intros users_db Hnd Hok.
  - simpl. rewrite app_nil_r. auto.
  - rewrite fmap_cons in Hnd. apply NoDup_cons in Hnd as [Hnew Hnd].
    destruct (Hok user) as [Hage Hmail]; [left|].
    cbn [create_all]. rewrite (create_user_ok _ _ Hage Hmail). cbn [fst snd].
    match goal with |- context [create_all users ?db] =>
      destruct (IH db Hnd) as [IH1 IH2] end.
    { intros user' Hin. destruct (Hok user') as [Hage' Hmail']; [right; exact Hin|].
      split; [exact Hage'|]. apply email_exists_false. intros u Hu.
      apply elem_of_app in Hu as [Hu | Hu].
      - eapply email_exists_false; eauto.
      - apply list_elem_of_singleton in Hu as ->. cbn. intros Heq.
        apply Hnew. rewrite Heq. apply list_elem_of_fmap. eauto. }
    rewrite IH1, IH2, !imap_cons, <- app_assoc. cbn [app].
    rewrite len_app. change (len [_]) with 1.
    replace (len users_db + Z.of_nat 0 + 1) with (len users_db + 1) by lia.
    split; [f_equal | do 2 f_equal];
      apply imap_ext; intros i u _; cbn; do 2 f_equal; lia.
Qed.

Lemma imap_ids_from {A : Type} (xs : list A) :
  forall k : nat,
  imap (fun i _ => Z.of_nat (k + i) + 1) xs
  = Z.of_nat <$> seq (S k) (length xs).
Proof.
  induction xs as [|x xs IH]; intros k; [reflexivity|].
  rewrite imap_cons. cbn [length seq]. rewrite fmap_cons. f_equal.
  - lia.
  - rewrite <- IH. apply imap_ext. intros i y _. cbn. f_equal. lia.
Qed.

(** Claim C5.  From the empty store, posting N bodies with pairwise
    distinct emails and ages within 0..150: every create returns its
    record; listing then returns exactly the N records in posting order,
    with the ids 1..N; and the detailed health check reports
    users_count = N. *)
Theorem create_all_from_empty (users : list User.t) :
  NoDup (User.email <$> users) ->
  Forall (fun user => 0 <= User.age user <= 150) users ->
  let run := create_all users [] in
  run.1 = imap (fun i user => Ok (nth_response i user)) users
  /\ (exists listing,
        (get_users run.2).1 = Ok listing
        /\ listing = imap nth_response users
        /\ length listing = length users
        /\ UserResponse.id <$> listing = Z.of_nat <$> seq 1 (length users))
  /\ (health_check run.2).1 = Ok (mkHealth "ok" "1.0.0" (len users)).
Proof.
  intros Hnd Hages.
  destruct (create_all_fresh users [] Hnd) as [H1 H2].
  { intros user Hin. split; [|reflexivity].
    rewrite Forall_forall in Hages. apply Hages, Hin. }
  cbn zeta. split; [exact H1|]. split.
  - exists (imap nth_response users).
    split; [|split; [reflexivity | split]].
    + cbn [get_users fst snd]. rewrite H2. cbn [app]. f_equal.
      rewrite fmap_imap. apply imap_ext. reflexivity.
    + apply length_imap.
    + rewrite <- (imap_ids_from users 0), fmap_imap. apply imap_ext.
      reflexivity.
  - cbn [health_check fst snd]. rewrite H2. cbn [app].
    unfold len. rewrite length_imap. reflexivity.
Qed.

Lemma create_all_from_empty_witness :
  let users := [alice; bob; carol] in
  let run := create_all users [] in
  run.1 = imap (fun i user => Ok (nth_response i user)) users
  /\ (exists listing,
        (get_users run.2).1 = Ok listing
        /\ listing = imap nth_response users
        /\ length listing = length users
        /\ UserResponse.id <$> listing = Z.of_nat <$> seq 1 (length users))
  /\ (health_check run.2).1 = Ok (mkHealth "ok" "1.0.0" (len users)).
Proof.
  apply create_all_from_empty.
  - apply (bool_decide_unpack _). vm_compute. exact I.
  - repeat constructor; simpl; lia.
Defined.

(** ** Deletion *)

(** The comprehension of [delete_user] is the filter that keeps the
    records whose id differs from [user_id]. *)
Lemma comprehension_id_neq (user_id : Z) (users_db : Store) :
  comprehension (fun u => negb (UserData.id u =? user_id)) users_db
  = filter (fun u => UserData.id u <> user_id) users_db.
Proof.
  induction users_db as [|u users_db IH]; [reflexivity|].
  rewrite filter_cons. cbn [comprehension]. rewrite IH.
  destruct (Z.eqb_spec (UserData.id u) user_id) as [Heq | Hne]; cbn [negb];
    destruct (decide (UserData.id u <> user_id)); try reflexivity; contradiction.
Qed.

Lemma count_id_positive (user_id : Z) (users_db : Store) :
  (exists u, u ∈ users_db /\ UserData.id u = user_id) ->
  1 <= count_id user_id users_db.
Proof.
  intros (u & Hu & Hid). unfold count_id, len.
  assert (Hin : u ∈ comprehension (fun v => UserData.id v =? user_id) users_db).
  { apply elem_of_comprehension. split; [exact Hu | apply Z.eqb_eq, Hid]. }
  destruct (comprehension _ users_db); [inversion Hin | cbn; lia].
Qed.

(** After a delete that returns, the detailed health check counts the
    records whose id differs from [user_id]. *)
Lemma health_after_delete (user_id : Z) (users_db : Store) (u : UserData.t) :
  find_user user_id users_db = Some u ->
  (health_check (delete_user user_id users_db).2).1
  = Ok (mkHealth "ok" "1.0.0" (len users_db - count_id user_id users_db)).
Proof.
  intros Hu. rewrite (delete_user_ok _ _ _ Hu).
  cbn [health_check fst snd]. do 2 f_equal. unfold count_id.
  rewrite (comprehension_split (fun v => UserData.id v =? user_id) users_db).
  lia.
Qed.

(** With a single record of id k, as ids are meant to be, the count goes
    down by exactly one. *)
Lemma delete_user_single (user_id : Z) (users_db : Store) :
  count_id user_id users_db = 1 ->
  (health_check (delete_user user_id users_db).2).1
  = Ok (mkHealth "ok" "1.0.0" (len users_db - 1)).
Proof.
  intros Hone.
  assert (Hex : exists u, u ∈ users_db /\ UserData.id u = user_id).
  { unfold count_id in Hone.
    destruct (comprehension (fun u => UserData.id u =? user_id) users_db)
      as [|u rest] eqn:Hc; [discriminate|].
    exists u. rewrite <- Z.eqb_eq.
    apply (elem_of_comprehension (fun v => UserData.id v =? user_id) users_db u).
    rewrite Hc. left. }
  destruct (find_user_is_Some _ _ Hex) as [v Hv].
  rewrite (health_after_delete _ _ _ Hv), Hone. reflexivity.
Qed.

(** Claim C6.  When some stored record has id k, [delete_user] returns
    the message "User k deleted successfully" and the next store is the
    old one without every record of id k, the other records in their
    old relative order; then [get_user] on k raises 404 and the
    users_count of the detailed health check has gone down by the
    number of records removed, which is at least one. *)
Theorem delete_user_removes_all (user_id : Z) (users_db : Store) :
  (exists u, u ∈ users_db /\ UserData.id u = user_id) ->
  let after := (delete_user user_id users_db).2 in
  (delete_user user_id users_db).1
  = Ok (mkDeleted ("User " +:+ str user_id +:+ " deleted successfully"))
  /\ after = filter (fun u => UserData.id u <> user_id) users_db
  /\ (forall u, u ∈ after <-> u ∈ users_db /\ UserData.id u <> user_id)
  /\ after `sublist_of` users_db
  /\ (get_user user_id after).1
     = Raise (mkHTTPException 404 "User not found")
  /\ (health_check after).1
     = Ok (mkHealth "ok" "1.0.0" (len users_db - count_id user_id users_db))
  /\ 1 <= count_id user_id users_db.
Proof.
  intros Hex. destruct (find_user_is_Some _ _ Hex) as [v Hv].
  pose proof (health_after_delete _ _ _ Hv) as Hhealth. revert Hhealth.
  rewrite (delete_user_ok _ _ _ Hv). cbn [fst snd]. intros Hhealth.
  split; [reflexivity|]. split; [apply comprehension_id_neq|].
  split; [|split; [apply comprehension_sublist|split; [|split]]].
  - intros u. rewrite elem_of_comprehension, negb_true_iff, Z.eqb_neq.
    reflexivity.
  - unfold get_user.
    replace (find_user user_id
               (comprehension (fun u => negb (UserData.id u =? user_id)) users_db))
      with (@None UserData.t); [reflexivity|].
    symmetry. apply find_user_None. intros u Hu.
    apply elem_of_comprehension in Hu as [_ Hu].
    apply negb_true_iff, Z.eqb_neq in Hu. exact Hu.
  - exact Hhealth.
  - apply count_id_positive, Hex.
Qed.

Lemma delete_user_removes_all_witness :
  let after := (delete_user 2 collision_store).2 in
  (delete_user 2 collision_store).1
  = Ok (mkDeleted ("User " +:+ str 2 +:+ " deleted successfully"))
  /\ after = filter (fun u => UserData.id u <> 2) collision_store
  /\ (forall u, u ∈ after <-> u ∈ collision_store /\ UserData.id u <> 2)
  /\ after `sublist_of` collision_store
  /\ (get_user 2 after).1
     = Raise (mkHTTPException 404 "User not found")
  /\ (health_check after).1
     = Ok (mkHealth "ok" "1.0.0" (len collision_store - count_id 2 collision_store))
  /\ 1 <= count_id 2 collision_store.
Proof.
  apply delete_user_removes_all.
  exists (UserData.Build 2 "B" "b@x.com" 20). split; [|reflexivity].
  vm_compute. left.
Defined.

(** ** What the handlers do to the store *)

(** Claim C9.  A create that returns appends the new record at the end
    and keeps every earlier record at its index; and for every request
    the next store is the old one, or the old one with one record
    appended (a create), or the old one with the records of one id
    filtered out (a delete), so each record of the next store is a record
    of the old store or the record just created. *)
Theorem store_frame (req : request) (users_db : Store) :
  (forall user resp users_db',
     create_user user users_db = (Ok resp, users_db') ->
     users_db'
     = users_db ++ [UserData.Build (UserResponse.id resp) (UserResponse.name resp)
                      (UserResponse.email resp) (UserResponse.age resp)]
     /\ (forall i u, users_db !! i = Some u -> users_db' !! i = Some u))
  /\ (store_after req users_db = users_db
      \/ (exists user u, req = PostUsers user
                         /\ store_after req users_db = users_db ++ [u])
      \/ (exists user_id, req = DeleteUser user_id
            /\ store_after req users_db
               = filter (fun u => UserData.id u <> user_id) users_db))
  /\ (forall u, u ∈ store_after req users_db ->
        u ∈ users_db
        \/ exists user, req = PostUsers user
                        /\ last (store_after req users_db) = Some u).
Proof.
  split; [|split].
  - intros user resp users_db' Hcreate.
    destruct (create_user_Ok_inv _ _ _ _ Hcreate) as [Hage Hmail].
    rewrite (create_user_ok _ _ Hage Hmail) in Hcreate.
    injection Hcreate as <- <-. cbn. split; [reflexivity|].
    intros i u Hi. apply lookup_app_l_Some, Hi.
  - destruct req as [| |user| |user_id|user_id]; cbn [store_after];
      try (left; reflexivity).
    + unfold create_user.
      destruct ((User.age user <? 0) || (User.age user >? 150));
        [left; reflexivity|].
      destruct (email_exists user users_db); [left; reflexivity|].
      right; left. eauto.
    + unfold get_user. destruct (find_user user_id users_db); left; reflexivity.
    + unfold delete_user. destruct (find_user user_id users_db);
        [|left; reflexivity].
      right; right. exists user_id. split; [reflexivity|].
      apply comprehension_id_neq.
  - intros u. destruct req as [| |user| |user_id|user_id]; cbn [store_after];
      try (left; assumption).
    + unfold create_user.
      destruct ((User.age user <? 0) || (User.age user >? 150));
        [left; assumption|].
      destruct (email_exists user users_db); [left; assumption|].
      cbn [snd]. intros Hu. apply elem_of_app in Hu as [Hu | Hu]; [left; exact Hu|].
      apply list_elem_of_singleton in Hu as ->.
      right. exists user. split; [reflexivity|]. apply last_snoc.
    + unfold get_user. destruct (find_user user_id users_db); left; assumption.
    + unfold delete_user. destruct (find_user user_id users_db);
        [|left; assumption].
      cbn [snd]. intros Hu. apply elem_of_comprehension in Hu as [Hu _].
      left; exact Hu.
Qed.

Lemma store_frame_witness :
  let db := (create_all [alice; bob] []).2 in
  (create_user carol db).2
  = db ++ [UserData.Build 3 "C" "c@x.com" 40]
  /\ (create_user carol db).2 !! 0%nat = Some (UserData.Build 1 "A" "a@x.com" 30).
Proof.
  intros db.
  destruct (proj1 (store_frame (PostUsers carol) db) carol
              (UserResponse.Build 3 "C" "c@x.com" 40) (create_user carol db).2)
    as [Happ Hkeep].
  - reflexivity.
  - split; [exact Happ|]. apply Hkeep. reflexivity.
Defined.

(** ** Ids in reachable stores *)

(** Every id in a reachable store is positive. *)
Lemma reachable_ids_positive (users_db : Store) :
  reachable users_db -> Forall (fun u => 0 < UserData.id u) users_db.
Proof.
  induction 1 as [|user db resp db' _ IH Hcreate|user_id db resp db' _ IH Hdel].
  - constructor.
  - destruct (create_user_Ok_inv _ _ _ _ Hcreate) as [Hage Hmail].
    rewrite (create_user_ok _ _ Hage Hmail) in Hcreate.
    injection Hcreate as _ <-. apply Forall_app. split; [exact IH|].
    constructor; [|constructor]. cbn. unfold len. lia.
  - apply delete_user_Ok_inv in Hdel as ->.
    rewrite Forall_forall in *. intros u Hu.
    apply elem_of_comprehension in Hu as [Hu _]. apply IH, Hu.
Qed.

(** Claim C1, at the run create, create, delete 1, create: every step
    returns, so the final store is reachable, and it holds two records
    with the id 2.  [get_user] on 2 then answers with the older of the
    two, and [delete_user] on 2 removes both. *)
Theorem id_collision_reachable :
  reachable collision_store
  /\ collision_store
     = [UserData.Build 2 "B" "b@x.com" 20; UserData.Build 2 "C" "c@x.com" 40]
  /\ ~ NoDup (UserData.id <$> collision_store)
  /\ (get_user 2 collision_store).1 = Ok (UserResponse.Build 2 "B" "b@x.com" 20)
  /\ (delete_user 2 collision_store).2 = [].
Proof.
  split; [|split; [reflexivity|split; [|split; reflexivity]]].
  - eapply (reachable_create carol).
    + eapply (reachable_delete 1).
      * eapply (reachable_create bob).
        -- eapply (reachable_create alice); [apply reachable_empty | reflexivity].
        -- reflexivity.
      * reflexivity.
    + reflexivity.
  - intros Hnd. apply (bool_decide_pack _) in Hnd. vm_compute in Hnd. exact Hnd.
Qed.

(** ** Lookups by id, and how creates and deletes move them *)

Lemma find_user_app_Some (user_id : Z) (xs ys : Store) (u : UserData.t) :
  find_user user_id xs = Some u -> find_user user_id (xs ++ ys) = Some u.
Proof.
  unfold find_user. induction xs as [|x xs IH]; cbn; [discriminate|].
  destruct (UserData.id x =? user_id); [trivial | exact IH].
Qed.

Lemma find_user_app_None (user_id : Z) (xs ys : Store) :
  find_user user_id xs = None ->
  find_user user_id (xs ++ ys) = find_user user_id ys.
Proof.
  unfold find_user. induction xs as [|x xs IH]; cbn; [reflexivity|].
  destruct (UserData.id x =? user_id); [discriminate | exact IH].
Qed.

Lemma find_user_Some_id (user_id : Z) (users_db : Store) (u : UserData.t) :
  find_user user_id users_db = Some u ->
  u ∈ users_db /\ UserData.id u = user_id.
Proof.
  intros Hf. apply next_or_none_Some in Hf as [Hin Hid].
  split; [exact Hin | apply Z.eqb_eq, Hid].
Qed.

Lemma find_user_other_deleted (j k : Z) (users_db : Store) :
  j <> k ->
  find_user j (comprehension (fun u => negb (UserData.id u =? k)) users_db)
  = find_user j users_db.
Proof.
  intros Hjk. unfold find_user.
  induction users_db as [|x xs IH]; cbn; [reflexivity|].
  destruct (Z.eqb_spec (UserData.id x) k) as [Hk | Hk]; cbn.
  - rewrite IH. destruct (Z.eqb_spec (UserData.id x) j); [congruence | reflexivity].
  - rewrite IH. reflexivity.
Qed.

Lemma find_user_first (user_id : Z) (older newer : Store) (u : UserData.t) :
  (forall v, v ∈ older -> UserData.id v <> user_id) ->
  UserData.id u = user_id ->
  find_user user_id (older ++ u :: newer) = Some u.
Proof.
  intros Hold Hid.
  rewrite find_user_app_None by (apply find_user_None, Hold).
  unfold find_user. cbn. rewrite (proj2 (Z.eqb_eq _ _) Hid). reflexivity.
Qed.

(** [get_user] answers with the first stored record of the id, whatever
    follows it, and leaves the store as it was. *)
Theorem get_user_first_match
    (user_id : Z) (older newer : Store) (u : UserData.t) :
  (forall v, v ∈ older -> UserData.id v <> user_id) ->
  UserData.id u = user_id ->
  get_user user_id (older ++ u :: newer)
  = (Ok (to_response u), older ++ u :: newer).
Proof.
  intros Hold Hid. unfold get_user.
  rewrite (find_user_first _ _ _ _ Hold Hid). reflexivity.
Qed.

Lemma get_user_first_match_witness :
  get_user 2 collision_store
  = (Ok (UserResponse.Build 2 "B" "b@x.com" 20), collision_store).
Proof.
  apply (get_user_first_match 2 [] [UserData.Build 2 "C" "c@x.com" 40]
           (UserData.Build 2 "B" "b@x.com" 20)).
  - intros v Hv. inversion Hv.
  - reflexivity.
Defined.

(** A create that returns, on a store where no record holds the new id,
    can be read back: [get_user] on the returned id answers with the
    returned record. *)
Theorem create_then_get
    (user : User.t) (users_db users_db' : Store) (resp : UserResponse.t) :
  create_user user users_db = (Ok resp, users_db') ->
  (forall v, v ∈ users_db -> UserData.id v <> UserResponse.id resp) ->
  get_user (UserResponse.id resp) users_db' = (Ok resp, users_db').
Proof.
  intros Hcreate Hfresh.
  destruct (create_user_Ok_inv _ _ _ _ Hcreate) as [Hage Hmail].
  rewrite (create_user_ok _ _ Hage Hmail) in Hcreate.
  injection Hcreate as <- <-.
  unfold get_user.
  erewrite find_user_first; [reflexivity | exact Hfresh | reflexivity].
Qed.

Lemma create_then_get_witness :
  get_user 1 [UserData.Build 1 "A" "a@x.com" 30]
  = (Ok (UserResponse.Build 1 "A" "a@x.com" 30),
     [UserData.Build 1 "A" "a@x.com" 30]).
Proof.
  apply (create_then_get alice [] [UserData.Build 1 "A" "a@x.com" 30]
           (UserResponse.Build 1 "A" "a@x.com" 30)).
  - reflexivity.
  - intros v Hv. inversion Hv.
Defined.

(** A create, returning or not, never changes the answer of a
    [get_user] that was returning a record: an older record of an id
    keeps answering for it. *)
Theorem create_keeps_lookups
    (user : User.t) (users_db : Store) (user_id : Z) (r : UserResponse.t) :
  (get_user user_id users_db).1 = Ok r ->
  (get_user user_id (create_user user users_db).2).1 = Ok r.
Proof.
  unfold get_user.
  destruct (find_user user_id users_db) as [u|] eqn:Hf; [|discriminate].
  intros Hr. unfold create_user.
  destruct ((User.age user <? 0) || (User.age user >? 150));
    [cbn [snd]; rewrite Hf; exact Hr|].
  destruct (email_exists user users_db); cbn [snd];
    [rewrite Hf; exact Hr|].
  rewrite (find_user_app_Some _ _ _ _ Hf). exact Hr.
Qed.

Lemma create_keeps_lookups_witness :
  (get_user 2 (create_user carol [UserData.Build 2 "B" "b@x.com" 20]).2).1
  = Ok (UserResponse.Build 2 "B" "b@x.com" 20).
Proof.
  apply create_keeps_lookups. reflexivity.
Defined.

(** Deleting the same id again always raises 404 and changes nothing
    more, whether or not the first delete found a record. *)
Theorem delete_user_twice (user_id : Z) (users_db : Store) :
  delete_user user_id (delete_user user_id users_db).2
  = (Raise (mkHTTPException 404 "User not found"),
     (delete_user user_id users_db).2).
Proof.
  assert (Hgone : forall db, find_user user_id db = None ->
            delete_user user_id db
            = (Raise (mkHTTPException 404 "User not found"), db)).
  { intros db Hn. unfold delete_user. rewrite Hn. reflexivity. }
  apply Hgone. unfold delete_user.
  destruct (find_user user_id users_db) eqn:Hf; cbn [snd]; [|exact Hf].
  apply find_user_None. intros u Hu.
  apply elem_of_comprehension in Hu as [_ Hu].
  apply negb_true_iff, Z.eqb_neq in Hu. exact Hu.
Qed.

(** A delete of one id, returning or not, leaves the answer of
    [get_user] on every other id as it was. *)
Theorem delete_keeps_other_lookups (j k : Z) (users_db : Store) :
  j <> k ->
  (get_user j (delete_user k users_db).2).1 = (get_user j users_db).1.
Proof.
  intros Hjk. unfold delete_user.
  destruct (find_user k users_db); cbn [snd]; [|reflexivity].
  unfold get_user. rewrite (find_user_other_deleted _ _ _ Hjk).
  destruct (find_user j users_db); reflexivity.
Qed.

Lemma delete_keeps_other_lookups_witness :
  (get_user 2 (delete_user 1 (create_all [alice; bob] []).2).2).1
  = (get_user 2 (create_all [alice; bob] []).2).1.
Proof.
  apply delete_keeps_other_lookups. lia.
Defined.

(** [get_user] returns a record exactly for the ids that the listing of
    [get_users] shows, and the record it returns is one of the listing
    and carries the id asked for. *)
Theorem get_user_agrees_with_listing (user_id : Z) (users_db : Store) :
  exists listing,
    (get_users users_db).1 = Ok listing
    /\ ((exists r, (get_user user_id users_db).1 = Ok r)
        <-> user_id ∈ UserResponse.id <$> listing)
    /\ (forall r, (get_user user_id users_db).1 = Ok r ->
          r ∈ listing /\ UserResponse.id r = user_id).
Proof.
  exists (to_response <$> users_db). split; [reflexivity|]. split.
  - rewrite <- list_fmap_compose. unfold get_user. split.
    + destruct (find_user user_id users_db) as [u|] eqn:Hf;
        [|intros [r Hr]; discriminate].
      intros _. apply find_user_Some_id in Hf as [Hin Hid].
      apply list_elem_of_fmap. exists u. split; [symmetry; exact Hid | exact Hin].
    + intros Hin. apply list_elem_of_fmap in Hin as (u & Hid & Hin).
      destruct (find_user_is_Some user_id users_db) as [v Hv].
      { exists u. split; [exact Hin | symmetry; exact Hid]. }
      rewrite Hv. eauto.
  - intros r. unfold get_user.
    destruct (find_user user_id users_db) as [u|] eqn:Hf; [|discriminate].
    intros [= <-]. apply find_user_Some_id in Hf as [Hin Hid].
    split; [|exact Hid]. apply list_elem_of_fmap. eauto.
Qed.

(** ** What every sequence of requests keeps *)

Lemma create_user_Raise_inv
    (user : User.t) (users_db users_db' : Store) (e : HTTPException) :
  create_user user users_db = (Raise e, users_db') ->
  users_db' = users_db /\ status_code e = 400.
Proof.
  unfold create_user.
  destruct ((User.age user <? 0) || (User.age user >? 150));
    [intros [= <- <-]; auto|].
  destruct (email_exists user users_db); [intros [= <- <-]; auto | discriminate].
Qed.

Lemma delete_user_Raise_inv
    (user_id : Z) (users_db users_db' : Store) (e : HTTPException) :
  delete_user user_id users_db = (Raise e, users_db') -> users_db' = users_db.
Proof.
  unfold delete_user. destruct (find_user user_id users_db); [discriminate|].
  intros [= _ <-]. reflexivity.
Qed.

Lemma store_after_reachable (req : request) (users_db : Store) :
  reachable users_db -> reachable (store_after req users_db).
Proof.
  intros Hr. destruct req as [| |user| |user_id|user_id]; cbn [store_after];
    try exact Hr.
  - destruct (create_user user users_db) as [[resp|e] db'] eqn:Hc; cbn [snd].
    + exact (reachable_create _ _ _ _ Hr Hc).
    + apply create_user_Raise_inv in Hc as [-> _]. exact Hr.
  - unfold get_user. destruct (find_user user_id users_db); exact Hr.
  - destruct (delete_user user_id users_db) as [[resp|e] db'] eqn:Hd; cbn [snd].
    + exact (reachable_delete _ _ _ _ Hr Hd).
    + apply delete_user_Raise_inv in Hd as ->. exact Hr.
Qed.

Lemma store_after_all_reachable (reqs : list request) :
  forall users_db : Store,
  reachable users_db -> reachable (store_after_all reqs users_db).
Proof.
  induction reqs as [|req reqs IH]; intros users_db Hr; [exact Hr|].
  apply IH, store_after_reachable, Hr.
Qed.

Lemma reachable_emails_unique (users_db : Store) :
  reachable users_db -> NoDup (UserData.email <$> users_db).
Proof.
  induction 1 as [|user db resp db' _ IH Hcreate|user_id db resp db' _ IH Hdel].
  - constructor.
  - destruct (create_user_Ok_inv _ _ _ _ Hcreate) as [Hage Hmail].
    rewrite (create_user_ok _ _ Hage Hmail) in Hcreate.
    injection Hcreate as _ <-. rewrite fmap_app. apply NoDup_app.
    split; [exact IH|]. split; [|apply NoDup_singleton].
    intros e He Hnew. apply list_elem_of_singleton in Hnew. cbn in Hnew; subst e.
    apply list_elem_of_fmap in He as (u & Heq & Hu).
    eapply email_exists_false; eauto.
  - apply delete_user_Ok_inv in Hdel as ->.
    refine (sublist_NoDup _ (UserData.email <$> db) IH _).
    apply fmap_sublist, comprehension_sublist.
Qed.

Lemma reachable_ages_in_range (users_db : Store) :
  reachable users_db -> Forall (fun u => 0 <= UserData.age u <= 150) users_db.
Proof.
  induction 1 as [|user db resp db' _ IH Hcreate|user_id db resp db' _ IH Hdel].
  - constructor.
  - destruct (create_user_Ok_inv _ _ _ _ Hcreate) as [Hage Hmail].
    rewrite (create_user_ok _ _ Hage Hmail) in Hcreate.
    injection Hcreate as _ <-. apply Forall_app. split; [exact IH|].
    constructor; [exact Hage | constructor].
  - apply delete_user_Ok_inv in Hdel as ->.
    rewrite Forall_forall in *. intros u Hu.
    apply elem_of_comprehension in Hu as [Hu _]. apply IH, Hu.
Qed.

(** After any sequence of requests from the empty store, returning or
    raising, no two stored records have the same email. *)
Theorem requests_keep_emails_unique (reqs : list request) :
  NoDup (UserData.email <$> store_after_all reqs []).
Proof.
  apply reachable_emails_unique, store_after_all_reachable, reachable_empty.
Qed.

(** After any sequence of requests from the empty store, every stored
    age is within 0..150 and every stored id is positive. *)
Theorem requests_keep_ages_and_ids (reqs : list request) :
  Forall (fun u => 0 <= UserData.age u <= 150 /\ 0 < UserData.id u)
         (store_after_all reqs []).
Proof.
  pose proof (store_after_all_reachable reqs [] reachable_empty) as Hr.
  apply Forall_and. split.
  - apply reachable_ages_in_range, Hr.
  - apply reachable_ids_positive, Hr.
Qed.

(** [create_user] returns a record exactly when the age is within 0..150
    and no stored record has the email of the body; whenever it raises,
    the status is 400 and the store is as it was. *)
Theorem create_user_returns_iff (user : User.t) (users_db : Store) :
  ((exists resp, (create_user user users_db).1 = Ok resp)
   <-> 0 <= User.age user <= 150
       /\ forall u, u ∈ users_db -> UserData.email u <> User.email user)
  /\ (forall e, (create_user user users_db).1 = Raise e ->
        status_code e = 400 /\ (create_user user users_db).2 = users_db).
Proof.
  split.
  - rewrite <- email_exists_false. split.
    + intros [resp Hresp].
      destruct (create_user user users_db) as [r db'] eqn:Hc. cbn in Hresp.
      subst r. exact (create_user_Ok_inv _ _ _ _ Hc).
    + intros [Hage Hmail]. rewrite (create_user_ok _ _ Hage Hmail). eauto.
  - intros e He.
    destruct (create_user user users_db) as [r db'] eqn:Hc. cbn in He.
    subst r. apply create_user_Raise_inv in Hc as [-> ->]. auto.
Qed.

Lemma NoDup_fmap_elem_eq {A B : Type} (f : A -> B) (xs : list A) (x y : A) :
  NoDup (f <$> xs) -> x ∈ xs -> y ∈ xs -> f x = f y -> x = y.
Proof.
  induction xs as [|z xs IH]; intros Hnd Hx Hy Hf; [inversion Hx|].
  rewrite fmap_cons in Hnd. apply NoDup_cons in Hnd as [Hz Hnd].
  apply elem_of_cons in Hx as [-> | Hx]; apply elem_of_cons in Hy as [-> | Hy].
  - reflexivity.
  - exfalso. apply Hz. rewrite Hf. apply list_elem_of_fmap. eauto.
  - exfalso. apply Hz. rewrite <- Hf. apply list_elem_of_fmap. eauto.
  - exact (IH Hnd Hx Hy Hf).
Qed.

(** In a store whose emails are pairwise distinct, deleting the id of a
    stored record frees its email: a create with that email and an age
    within 0..150 then returns a record. *)
Theorem email_free_after_delete
    (u : UserData.t) (body : User.t) (users_db : Store) :
  NoDup (UserData.email <$> users_db) ->
  u ∈ users_db ->
  User.email body = UserData.email u ->
  0 <= User.age body <= 150 ->
  exists resp,
    (create_user body (delete_user (UserData.id u) users_db).2).1 = Ok resp.
Proof.
  intros Hnd Hu Hemail Hage.
  destruct (find_user_is_Some (UserData.id u) users_db) as [v Hv]; [eauto|].
  rewrite (delete_user_ok _ _ _ Hv). cbn [snd].
  rewrite create_user_ok; [eauto | exact Hage |].
  apply email_exists_false. intros w Hw Heq.
  apply elem_of_comprehension in Hw as [Hw Hid].
  apply negb_true_iff, Z.eqb_neq in Hid. apply Hid.
  rewrite (NoDup_fmap_elem_eq UserData.email users_db w u Hnd Hw Hu);
    [reflexivity | congruence].
Qed.

Lemma email_free_after_delete_witness :
  exists resp,
    (create_user (User.Build None "A2" "a@x.com" 31)
       (delete_user 1 (create_all [alice; bob] []).2).2).1 = Ok resp.
Proof.
  apply (email_free_after_delete (UserData.Build 1 "A" "a@x.com" 30)
           (User.Build None "A2" "a@x.com" 31) (create_all [alice; bob] []).2).
  - apply (bool_decide_unpack _). vm_compute. exact I.
  - vm_compute. left.
  - reflexivity.
  - simpl. lia.
Defined.

Lemma dense_step (req : request) (users_db : Store) :
  is_delete req = false ->
  UserData.id <$> users_db = Z.of_nat <$> seq 1 (length users_db) ->
  UserData.id <$> store_after req users_db
  = Z.of_nat <$> seq 1 (length (store_after req users_db)).
Proof.
  intros Hreq Hdense.
  destruct req as [| |user| |user_id|user_id]; cbn [store_after];
    try exact Hdense; try discriminate.
  - unfold create_user.
    destruct ((User.age user <? 0) || (User.age user >? 150)); [exact Hdense|].
    destruct (email_exists user users_db); [exact Hdense|]. cbn [snd].
    rewrite length_app, seq_app, !fmap_app, Hdense. cbn. unfold len.
    do 2 f_equal. lia.
  - unfold get_user. destruct (find_user user_id users_db); exact Hdense.
Qed.

(** As long as no request is a delete, the stored ids are 1, 2, ... in
    store order, whatever creates raise on the way: without deletes no
    id is ever held twice. *)
Theorem ids_dense_without_delete (reqs : list request) :
  Forall (fun req => is_delete req = false) reqs ->
  UserData.id <$> store_after_all reqs []
  = Z.of_nat <$> seq 1 (length (store_after_all reqs []))
  /\ NoDup (UserData.id <$> store_after_all reqs []).
Proof.
  intros Hreqs.
  assert (Hdense : forall db : Store,
            UserData.id <$> db = Z.of_nat <$> seq 1 (length db) ->
            UserData.id <$> store_after_all reqs db
            = Z.of_nat <$> seq 1 (length (store_after_all reqs db))).
  { induction Hreqs as [|req reqs Hreq _ IH]; intros db Hdb; [exact Hdb|].
    apply IH, dense_step; assumption. }
  specialize (Hdense [] eq_refl). split; [exact Hdense|].
  rewrite Hdense. apply (NoDup_fmap_2 _), NoDup_seq.
Qed.

Lemma ids_dense_without_delete_witness :
  let reqs := [PostUsers alice; GetUser 7; PostUsers alice; PostUsers bob] in
  UserData.id <$> store_after_all reqs []
  = Z.of_nat <$> seq 1 (length (store_after_all reqs []))
  /\ NoDup (UserData.id <$> store_after_all reqs []).
Proof.
  apply ids_dense_without_delete. repeat constructor.
Defined.

(** ** The handlers on the list objects, and the fixture of the tests *)

Lemma service_store_bind (objs : gmap nat (list UserData.t)) (l t : nat)
    (db : Store) :
  service_store (mkWorld (<[l := db]> objs) l t) = db.
Proof. unfold service_store, deref. cbn. rewrite lookup_insert_eq. reflexivity. Qed.



Lemma world_after_names (req : request) (w : World) :
  test_users_db (world_after req w) = test_users_db w
  /\ (is_delete req = false ->
      main_users_db (world_after req w) = main_users_db w).
Proof.
  destruct req as [| |user| |user_id|user_id]; cbn [world_after is_delete];
    try (split; [reflexivity | reflexivity || discriminate]).
  - unfold create_user_in.
    destruct (create_user user (service_store w)).1; split; reflexivity.
  - unfold delete_user_in.
    destruct (delete_user user_id (service_store w)).1;
      (split; [reflexivity | discriminate]).
Qed.

(** While the two names are bound to the same list and no request is a
    delete, the [clear()] of the fixture empties the store of the
    service. *)
Theorem clear_db_resets_without_delete (reqs : list request) (w : World) :
  main_users_db w = test_users_db w ->
  Forall (fun req => is_delete req = false) reqs ->
  service_store (clear_db (world_after_all reqs w)) = [].
Proof.
  intros Halias Hreqs.
  assert (Hsame : main_users_db (world_after_all reqs w)
                  = test_users_db (world_after_all reqs w)).
  { revert w Halias. induction Hreqs as [|req reqs Hreq _ IH]; intros w Halias;
      [exact Halias|].
    apply IH. destruct (world_after_names req w) as [-> Hmain].
    rewrite (Hmain Hreq). exact Halias. }
  unfold clear_db. rewrite Hsame. apply service_store_bind.
Qed.

Lemma clear_db_resets_without_delete_witness :
  service_store
    (clear_db (world_after_all [PostUsers alice; GetUsers; PostUsers bob]
                               imported)) = [].
Proof.
  apply clear_db_resets_without_delete.
  - reflexivity.
  - repeat constructor.
Defined.

Lemma names_apart_after (req : request) (w : World) :
  names_apart w -> names_apart (world_after req w).
Proof.
  intros [Hlive Hne].
  destruct req as [| |user| |user_id|user_id]; cbn [world_after];
    try (split; assumption).
  - unfold create_user_in.
    destruct (create_user user (service_store w)).1; cbn [snd];
      [|split; assumption].
    split; cbn; [|exact Hne]. rewrite lookup_insert_ne by exact Hne. exact Hlive.
  - unfold delete_user_in.
    destruct (delete_user user_id (service_store w)).1; cbn [snd];
      [|split; assumption].
    assert (Hfresh : fresh (dom (objects w)) <> test_users_db w).
    { intros Heq. apply (is_fresh (dom (objects w))).
      rewrite Heq. apply elem_of_dom, Hlive. }
    split; cbn; [|exact Hfresh].
    rewrite lookup_insert_ne by exact Hfresh. exact Hlive.
Qed.

(** Once a delete has returned, the name of [app.main] is bound to a new
    list that the test module does not hold: from then on, whatever
    requests follow, the [clear()] of the fixture leaves the store of the
    service as it is. *)
Theorem clear_db_misses_after_delete
    (user_id : Z) (reqs : list request) (w : World) (p : DeletePayload) :
  is_Some (objects w !! test_users_db w) ->
  (delete_user_in user_id w).1 = Ok p ->
  service_store
    (clear_db (world_after_all reqs (delete_user_in user_id w).2))
  = service_store (world_after_all reqs (delete_user_in user_id w).2).
Proof.
  intros Hlive Hok.
  assert (Hstart : names_apart (delete_user_in user_id w).2).
  { revert Hok. unfold delete_user_in.
    destruct (delete_user user_id (service_store w)).1; [|discriminate].
    intros _. cbn [snd].
    assert (Hfresh : fresh (dom (objects w)) <> test_users_db w).
    { intros Heq. apply (is_fresh (dom (objects w))).
      rewrite Heq. apply elem_of_dom, Hlive. }
    split; cbn; [|exact Hfresh].
    rewrite lookup_insert_ne by exact Hfresh. exact Hlive. }
  assert (Hend : names_apart (world_after_all reqs (delete_user_in user_id w).2)).
  { generalize dependent (delete_user_in user_id w).2. clear.
    induction reqs as [|req reqs IH]; intros w0 Hw0; [exact Hw0|].
    apply IH, names_apart_after, Hw0. }
  destruct Hend as [_ Hne].
  unfold clear_db, service_store, deref. cbn.
  rewrite lookup_insert_ne by (intros Heq; apply Hne; symmetry; exact Heq).
  reflexivity.
Qed.

Lemma clear_db_misses_after_delete_witness :
  let w := world_after_all [PostUsers alice; PostUsers bob] imported in
  service_store (clear_db (world_after_all [PostUsers carol]
                                           (delete_user_in 1 w).2))
  = service_store (world_after_all [PostUsers carol] (delete_user_in 1 w).2)
  /\ service_store (world_after_all [PostUsers carol] (delete_user_in 1 w).2)
     = [UserData.Build 2 "B" "b@x.com" 20; UserData.Build 2 "C" "c@x.com" 40].
Proof.
  intros w. split.
  - apply (clear_db_misses_after_delete 1 [PostUsers carol] w
             (mkDeleted "User 1 deleted successfully")).
    + exists [UserData.Build 1 "A" "a@x.com" 30;
              UserData.Build 2 "B" "b@x.com" 20].
      vm_compute. reflexivity.
    + vm_compute. reflexivity.
  - vm_compute. reflexivity.
Defined.

(** ** A create seen through the reading handlers *)

(** After a create that returns, the listing is the old listing with the
    returned record added at the end, and the users_count of the
    detailed health check is one more than before. *)
Theorem create_then_list
    (user : User.t) (users_db users_db' : Store) (resp : UserResponse.t) :
  create_user user users_db = (Ok resp, users_db') ->
  (get_users users_db').1 = Ok ((to_response <$> users_db) ++ [resp])
  /\ (health_check users_db').1
     = Ok (mkHealth "ok" "1.0.0" (len users_db + 1)).
Proof.
  intros Hcreate.
  destruct (create_user_Ok_inv _ _ _ _ Hcreate) as [Hage Hmail].
  rewrite (create_user_ok _ _ Hage Hmail) in Hcreate.
  injection Hcreate as <- <-. cbn [get_users health_check fst].
  rewrite fmap_app, len_app. split; reflexivity.
Qed.

Lemma create_then_list_witness :
  (get_users [UserData.Build 2 "B" "b@x.com" 20;
              UserData.Build 2 "C" "c@x.com" 40]).1
  = Ok ((to_response <$> [UserData.Build 2 "B" "b@x.com" 20])
        ++ [UserResponse.Build 2 "C" "c@x.com" 40])
  /\ (health_check [UserData.Build 2 "B" "b@x.com" 20;
                    UserData.Build 2 "C" "c@x.com" 40]).1
     = Ok (mkHealth "ok" "1.0.0" (len [UserData.Build 2 "B" "b@x.com" 20] + 1)).
Proof.
  apply (create_then_list carol [UserData.Build 2 "B" "b@x.com" 20]).
  reflexivity.
Defined.
